(** * mopidy-mqtt: the MQTT frontend of Mopidy, embedded and verified

    A shallow embedding of [mopidy_mqtt/frontend.py] (class [MQTTFrontend]):
    the five [CoreListener] callbacks that publish player events and the
    seven [on_action_*] handlers that translate inbound commands into calls
    on the Mopidy core.

    Python's effects are threaded through a small state-and-exception monad
    over a [World] that holds the player behind [self.core], the sequence of
    calls made on it, the messages handed to [self.mqtt.publish] and the
    records handed to the module logger. *)

From Stdlib Require Import ZArith List String Ascii Bool Lia DecimalString.
From Stdlib Require Import DecimalZ DecimalPos.
Import ListNotations.

Open Scope Z_scope.
Open Scope string_scope.

(** ** Python's [int(str)] and [str(int)]

    Characters are code points U+0000..U+00FF (Rocq's [ascii]); setup.py
    declares Python 3.7, whose [int] accepts surrounding whitespace, one
    sign, and single underscores between digits, and has no length limit
    (the cap on the number of digits came with later interpreters). *)

Definition code (c : ascii) : nat := nat_of_ascii c.

Definition is_digit (c : ascii) : bool :=
  (48 <=? code c)%nat && (code c <=? 57)%nat.

Definition digit_val (c : ascii) : Z := Z.of_nat (code c) - 48.

(** Whitespace skipped by [int]: TAB, LF, VT, FF, CR, SPACE, and the two
    Unicode spaces below U+0100 (NEL and NBSP), which CPython first rewrites
    to SPACE. *)
Definition is_space (c : ascii) : bool :=
  ((9 <=? code c)%nat && (code c <=? 13)%nat)
  || (code c =? 32)%nat || (code c =? 133)%nat || (code c =? 160)%nat.

Fixpoint lstrip (l : list ascii) : list ascii :=
  match l with
  | c :: r => if is_space c then lstrip r else l
  | [] => []
  end.

Definition strip (l : list ascii) : list ascii :=
  rev (lstrip (rev (lstrip l))).

(** The digit scanner of [PyLong_FromString]: [prev_digit] tells whether the
    previous character was a digit, so that an underscore is accepted only
    between two digits and the numeral is never empty. *)
Fixpoint scan_digits (acc : Z) (prev_digit : bool) (l : list ascii)
  : option Z :=
  match l with
  | [] => if prev_digit then Some acc else None
  | c :: r =>
      if is_digit c then scan_digits (10 * acc + digit_val c) true r
      else if Ascii.eqb c "_"%char then
        if prev_digit then scan_digits acc false r else None
      else None
  end.

(** [int(s)] in base ten; [None] stands for [ValueError]. *)
Definition py_int (s : string) : option Z :=
  match strip (list_ascii_of_string s) with
  | [] => None
  | c :: r =>
      if Ascii.eqb c "+"%char then scan_digits 0 false r
      else if Ascii.eqb c "-"%char then
        option_map Z.opp (scan_digits 0 false r)
      else scan_digits 0 false (c :: r)
  end.

(** [str(n)] for an integer [n]. *)
Definition py_str (n : Z) : string := NilZero.string_of_int (Z.to_int n).

(** ** Values of the Mopidy API *)

(** [mopidy.audio.PlaybackState]. *)
Inductive PlaybackState : Type := STOPPED | PLAYING | PAUSED.

(** The string constants behind the three states. *)
Definition state_value (s : PlaybackState) : string :=
  match s with
  | STOPPED => "stopped"
  | PLAYING => "playing"
  | PAUSED => "paused"
  end.

Definition state_eqb (a b : PlaybackState) : bool :=
  String.eqb (state_value a) (state_value b).

Record Track : Type := { track_name : string; track_uri : string }.

Record TlTrack : Type := { tlid : Z; track : Track }.

(** The calls the frontend makes on [self.core]. *)
Inductive CoreCall : Type :=
| mixer_get_volume
| mixer_set_volume (value : Z)
| playback_get_state
| playback_play
| playback_stop
| playback_pause
| playback_resume
| playback_previous
| playback_next
| tracklist_add (tracks : option (list Track)) (at_position : option Z)
                (uri : option string) (uris : option (list string))
| tracklist_clear.

(** A read of the core, as opposed to a command. *)
Definition is_query (c : CoreCall) : bool :=
  match c with
  | mixer_get_volume | playback_get_state => true
  | _ => false
  end.

Definition commands (cs : list CoreCall) : list CoreCall :=
  filter (fun c => negb (is_query c)) cs.

(** The player behind [self.core]: mixer volume, playback state and the
    queue, kept as the URIs in play order.  The mixer is taken to report a
    volume, an integer; a core whose [get_volume] answers [None] is outside
    this model. *)
Record Player : Type := {
  mixer_volume : Z;
  playback_state : PlaybackState;
  tracklist : list string
}.

(** What sits outside frontend.py: the playback engine of Mopidy, which
    decides what a playback command does to the player, and the two
    formatters imported from [.utils]. *)
Class Collaborators : Type := {
  playback_engine : CoreCall -> Player -> Player;
  describe_track : Track -> string;
  describe_stream : string -> string
}.

(** Arguments of a log call, kept unformatted as [logging] does. *)
Inductive PyVal : Type :=
| VStr (s : string)
| VInt (n : Z)
| VState (s : PlaybackState)
| VTrack (t : Track).

Inductive Level : Type := DEBUG | WARNING | ERROR.

Record LogRecord : Type := {
  level : Level;
  fmt : string;
  args : list PyVal
}.

Record OutboundMessage : Type := {
  topic_suffix : string;
  payload : string
}.

Record World : Type := {
  player : Player;
  calls : list CoreCall;
  outbox : list OutboundMessage;
  log : list LogRecord
}.

(** ** The monad of handler bodies *)

Inductive exn : Type := NotImplementedError | IndexError.

Inductive result (A : Type) : Type :=
| Returned (a : A)
| Raised (e : exn).

Arguments Returned {A} a.
Arguments Raised {A} e.

Definition M (A : Type) : Type := World -> result A * World.

Definition ret {A : Type} (a : A) : M A := fun w => (Returned a, w).

Definition bind {A B : Type} (m : M A) (k : A -> M B) : M B :=
  fun w =>
    match m w with
    | (Returned a, w') => k a w'
    | (Raised e, w') => (Raised e, w')
    end.

Definition raise {A : Type} (e : exn) : M A := fun w => (Raised e, w).

Notation "x <- m ;; k" := (bind m (fun x => k))
  (at level 61, m at next level, right associativity).
Notation "m ;; k" := (bind m (fun _ => k))
  (at level 61, right associativity).

Definition VOLUME_MAX : Z := 100.
Definition VOLUME_MIN : Z := 0.

(** Sample data used to exercise the statements below. *)
Definition sample_player : Player :=
  {| mixer_volume := 95;
     playback_state := PLAYING;
     tracklist := ["local:track:1"; "local:track:2"] |}.

Definition sample_world : World :=
  {| player := sample_player; calls := []; outbox := []; log := [] |}.

(** A toy engine: play, pause, resume and stop move the playback state the
    obvious way, previous and next leave it alone. *)
Definition sample_engine (c : CoreCall) (p : Player) : Player :=
  match c with
  | playback_play | playback_resume =>
      {| mixer_volume := mixer_volume p; playback_state := PLAYING;
         tracklist := tracklist p |}
  | playback_pause =>
      {| mixer_volume := mixer_volume p; playback_state := PAUSED;
         tracklist := tracklist p |}
  | playback_stop =>
      {| mixer_volume := mixer_volume p; playback_state := STOPPED;
         tracklist := tracklist p |}
  | _ => p
  end.

Definition sample_collaborators : Collaborators := {|
  playback_engine := sample_engine;
  describe_track := fun t => track_name t ++ ";" ++ track_uri t;
  describe_stream := fun title => title
|}.

Section Frontend.

Context {collab : Collaborators}.

(** ** The core behind [self.core] *)

(** Effect of one call on the player, for the Mopidy that setup.py
    requires (3.0 or later).  The mixer stores the volume it is given.
    [tracklist.add] there is [add(tracks=None, at_position=None,
    uris=None)]: a call that passes the keyword [uri] is refused inside the
    core actor and leaves the queue as it was (the exception stays in the
    future the proxy returned, which the frontend never reads); a call that
    passes [uris] alone appends them at the end; the other forms, which the
    frontend never issues, are left without effect.  [tracklist.clear]
    empties the queue, upon which the core stops playback.  Playback
    commands are the engine's. *)
Definition core_step (c : CoreCall) (p : Player) : Player :=
  match c with
  | mixer_get_volume | playback_get_state => p
  | mixer_set_volume v =>
      {| mixer_volume := v;
         playback_state := playback_state p;
         tracklist := tracklist p |}
  | tracklist_add _ _ (Some _) _ => p
  | tracklist_add None None None (Some us) =>
      {| mixer_volume := mixer_volume p;
         playback_state := playback_state p;
         tracklist := tracklist p ++ us |}
  | tracklist_add _ _ _ _ => p
  | tracklist_clear =>
      {| mixer_volume := mixer_volume p;
         playback_state := STOPPED;
         tracklist := [] |}
  | _ => playback_engine c p
  end.

Definition core (c : CoreCall) : M unit :=
  fun w =>
    (Returned tt,
     {| player := core_step c (player w);
        calls := calls w ++ [c];
        outbox := outbox w;
        log := log w |}).

(** The answer of the core to a query, read off the player. *)
Definition answer {A : Type} (f : Player -> A) : M A :=
  fun w => (Returned (f (player w)), w).

(** [self.mqtt.publish(suffix, payload)]: one message handed to the bus. *)
Definition publish (suffix body : string) : M unit :=
  fun w =>
    (Returned tt,
     {| player := player w;
        calls := calls w;
        outbox := outbox w ++ [{| topic_suffix := suffix; payload := body |}];
        log := log w |}).

Definition emit (l : Level) (f : string) (a : list PyVal) : M unit :=
  fun w =>
    (Returned tt,
     {| player := player w;
        calls := calls w;
        outbox := outbox w;
        log := log w ++ [{| level := l; fmt := f; args := a |}] |}).

Definition log_debug := emit DEBUG.
Definition log_warn := emit WARNING.
Definition log_error := emit ERROR.

(** ** class MQTTFrontend *)

(** The [volume] property: getter. *)
Definition volume : M Z :=
  core mixer_get_volume ;; answer mixer_volume.

(** The [volume] property: setter, with its normalisation. *)
Definition set_volume (value : Z) : M unit :=
  let value := Z.min value VOLUME_MAX in
  let value := Z.max value VOLUME_MIN in
  core (mixer_set_volume value).

(** The [current_state] property. *)
Definition current_state : M PlaybackState :=
  core playback_get_state ;; answer playback_state.

Definition playback_state_changed (old_state new_state : PlaybackState)
  : M unit :=
  log_debug "MQTT playback state changed: %s" [VState new_state] ;;
  publish "sta" (state_value new_state).

Definition track_playback_started (tl_track : TlTrack) : M unit :=
  log_debug "MQTT track started: %s" [VTrack (track tl_track)] ;;
  publish "trk" (describe_track (track tl_track)).

Definition track_playback_ended (tl_track : TlTrack) (time_position : Z)
  : M unit :=
  log_debug "MQTT track ended: %s" [VStr (track_name (track tl_track))] ;;
  publish "trk" "".

Definition volume_changed (vol : Z) : M unit :=
  log_debug "MQTT volume changed: %s" [VInt vol] ;;
  publish "vol" (py_str vol).

Definition stream_title_changed (title : string) : M unit :=
  log_debug "MQTT title changed: %s" [VStr title] ;;
  publish "trk" (describe_stream title).

(** Playback control.  The three tests of [toggle] each read the state
    anew; when none matches, control falls through to the tests below. *)
Definition on_action_plb (value : string) : M unit :=
  let tail : M unit :=
    if value =? "prev" then core playback_previous
    else if value =? "next" then core playback_next
    else log_warn "Unknown playback control action: %s" [VStr value] in
  if value =? "play" then core playback_play
  else if value =? "stop" then core playback_stop
  else if value =? "pause" then core playback_pause
  else if value =? "resume" then core playback_resume
  else if value =? "toggle" then
    s1 <- current_state ;;
    if state_eqb s1 PLAYING then core playback_pause
    else
      s2 <- current_state ;;
      if state_eqb s2 PAUSED then core playback_resume
      else
        s3 <- current_state ;;
        if state_eqb s3 STOPPED then core playback_play
        else tail
  else tail.

(** Volume control.  [value[0]] and [value[1:]] are the head and the tail
    of the string; the guard makes the empty case unreachable. *)
Definition on_action_vol (value : string) : M unit :=
  if (value =? "") || (String.length value <? 2)%nat then
    log_warn "Invalid volume control parameter: %s" [VStr value]
  else
    match value with
    | EmptyString => raise IndexError
    | String operator rest =>
        match py_int rest with
        | None => log_warn "Invalid volume setting value: %s" [VStr rest]
        | Some amount =>
            if Ascii.eqb operator "="%char then set_volume amount
            else if Ascii.eqb operator "-"%char then
              v <- volume ;; set_volume (v - amount)
            else if Ascii.eqb operator "+"%char then
              v <- volume ;; set_volume (v + amount)
            else log_warn "Unknown volume control operator: %s"
                          [VStr (String operator "")]
        end
    end.

(** Append URI to queue (tracklist). *)
Definition on_action_add (value : string) : M unit :=
  if value =? "" then log_warn "Cannot add empty track to queue" []
  else core (tracklist_add None None (Some value) None).

(** Replace current queue with playlist from URI. *)
Definition on_action_loa (value : string) : M unit :=
  if value =? "" then log_warn "Cannot load unnamed playlist" []
  else core tracklist_clear ;; raise NotImplementedError.

(** Clear the queue (tracklist). *)
Definition on_action_clr (value : string) : M unit :=
  core tracklist_clear.

(** Search tracks in library. *)
Definition on_action_src (value : string) : M unit :=
  if value =? "" then log_warn "Cannot search without a query" []
  else raise NotImplementedError.

(** Inquiries about specific information. *)
Definition on_action_inf (value : string) : M unit :=
  if value =? "state" then
    s <- current_state ;; publish "sta" (state_value s)
  else if value =? "volume" then
    v <- volume ;; publish "vol" (py_str v)
  else if value =? "queue" then raise NotImplementedError
  else log_warn "Unkown information request: %s" [VStr value].

End Frontend.

(** ** The dispatcher *)

Section Comms.

Context {collab : Collaborators}.

(** Modelled from the spec: the dispatcher of [mopidy_mqtt/mqtt.py] (class
    [Comms]), which is not among the sources.  It looks up the handler
    keyed by the topic suffix; with none it logs and returns.  A handler
    that raises is not allowed to propagate past it: the condition is
    logged as such and the message dropped. *)
Definition handler_for (suffix : string) : option (string -> M unit) :=
  if suffix =? "plb" then Some on_action_plb
  else if suffix =? "vol" then Some on_action_vol
  else if suffix =? "add" then Some on_action_add
  else if suffix =? "loa" then Some on_action_loa
  else if suffix =? "clr" then Some on_action_clr
  else if suffix =? "src" then Some on_action_src
  else if suffix =? "inf" then Some on_action_inf
  else None.

Definition exn_name (e : exn) : string :=
  match e with
  | NotImplementedError => "NotImplementedError"
  | IndexError => "IndexError"
  end.

(** Modelled from the spec: see [handler_for]. *)
Definition dispatch (suffix body : string) : M unit :=
  match handler_for suffix with
  | None => log_warn "Cannot handle MQTT messages on topic: %s" [VStr suffix]
  | Some handler =>
      fun w =>
        match handler body w with
        | (Returned tt, w') => (Returned tt, w')
        | (Raised e, w') =>
            log_error "MQTT action %s failed: %s"
                      [VStr suffix; VStr (exn_name e)] w'
        end
  end.

End Comms.

(** ** Vocabulary of the statements *)

(** A numeral: one or more decimal digits. *)
Definition numeral (s : string) : Prop :=
  s <> "" /\ Forall (fun c => is_digit c = true) (list_ascii_of_string s).

(** The number a numeral denotes, most significant digit first. *)
Definition numeral_value (s : string) : Z :=
  fold_left (fun acc c => 10 * acc + digit_val c) (list_ascii_of_string s) 0.

(** [clamp x lo hi]: [x] brought into the interval from [lo] to [hi]. *)
Definition clamp (x lo hi : Z) : Z :=
  if (x <? lo)%Z then lo else if (hi <? x)%Z then hi else x.

(** The arithmetic each volume operator stands for. *)
Definition volume_op (operator : ascii) (V N : Z) : Z :=
  if Ascii.eqb operator "="%char then N
  else if Ascii.eqb operator "-"%char then V - N
  else V + N.

Definition is_volume_operator (c : ascii) : bool :=
  Ascii.eqb c "="%char || Ascii.eqb c "-"%char || Ascii.eqb c "+"%char.

Definition all_digits (s : string) : bool :=
  forallb is_digit (list_ascii_of_string s).

(** A volume payload is malformed, read as digits only: shorter than two
    characters, or a tail that is not a string of digits, or a head that is
    no operator. *)
Definition malformed_digits (value : string) : bool :=
  match value with
  | String operator (String c r as rest) =>
      negb (all_digits rest) || negb (is_volume_operator operator)
  | _ => true
  end.

(** A volume payload is malformed, read as the handler reads it: shorter
    than two characters, or a tail that [int] rejects, or a head that is no
    operator. *)
Definition malformed_int (value : string) : bool :=
  match value with
  | String operator (String c r as rest) =>
      match py_int rest with
      | None => true
      | Some _ => negb (is_volume_operator operator)
      end
  | _ => true
  end.

(** The world after the calls [cs] were made on the core, in order. *)
Definition perform {collab : Collaborators} (cs : list CoreCall) (w : World)
  : World :=
  {| player := fold_left (fun p c => core_step c p) cs (player w);
     calls := calls w ++ cs;
     outbox := outbox w;
     log := log w |}.

(** The playback call [toggle] stands for in each state, and the number of
    state reads it takes to get there. *)
Definition toggle_call (s : PlaybackState) : CoreCall :=
  match s with
  | PLAYING => playback_pause
  | PAUSED => playback_resume
  | STOPPED => playback_play
  end.

Definition toggle_reads (s : PlaybackState) : nat :=
  match s with
  | PLAYING => 1
  | PAUSED => 2
  | STOPPED => 3
  end.

Definition plb_values : list string :=
  ["play"; "stop"; "pause"; "resume"; "toggle"; "prev"; "next"].

Definition inf_values : list string := ["state"; "volume"; "queue"].

Definition is_warning (r : LogRecord) : bool :=
  match level r with WARNING => true | _ => false end.

(** [w] with the one record [r] appended to the log and nothing else
    touched. *)
Definition logged (r : LogRecord) (w : World) : World :=
  {| player := player w; calls := calls w; outbox := outbox w;
     log := log w ++ [r] |}.

(** [w] with the one message [m] appended to the outbox and nothing else
    touched. *)
Definition published (m : OutboundMessage) (w : World) : World :=
  {| player := player w; calls := calls w;
     outbox := outbox w ++ [m]; log := log w |}.

Definition warning (f : string) (a : list PyVal) : LogRecord :=
  {| level := WARNING; fmt := f; args := a |}.

(** The record by which the dispatcher signals a failed handler. *)
Definition failure (suffix : string) (e : exn) : LogRecord :=
  {| level := ERROR; fmt := "MQTT action %s failed: %s";
     args := [VStr suffix; VStr (exn_name e)] |}.

Definition debug (f : string) (a : list PyVal) : LogRecord :=
  {| level := DEBUG; fmt := f; args := a |}.

Definition message (suffix body : string) : OutboundMessage :=
  {| topic_suffix := suffix; payload := body |}.

(** The inbound messages the bridge rejects on validation: an unknown
    action code, an unknown playback or information value, a malformed
    volume payload, an empty URI, playlist name or query. *)
Definition rejected (suffix body : string) : bool :=
  if suffix =? "plb" then negb (existsb (String.eqb body) plb_values)
  else if suffix =? "vol" then malformed_int body
  else if suffix =? "add" then body =? ""
  else if suffix =? "loa" then body =? ""
  else if suffix =? "clr" then false
  else if suffix =? "src" then body =? ""
  else if suffix =? "inf" then negb (existsb (String.eqb body) inf_values)
  else true.

(** The inbound messages that ask for an action left unimplemented. *)
Definition unimplemented (suffix body : string) : bool :=
  ((suffix =? "loa") && negb (body =? ""))
  || ((suffix =? "src") && negb (body =? ""))
  || ((suffix =? "inf") && (body =? "queue")).

(** The volume is as before and the log grew by one warning. *)
Definition volume_kept_and_warned (w w' : World) : Prop :=
  mixer_volume (player w') = mixer_volume (player w)
  /\ exists r, is_warning r = true /\ log w' = (log w ++ [r])%list.

(** ** Vocabulary of the further statements *)

(** A volume within the bounds of the module. *)
Definition in_range (v : Z) : Prop := VOLUME_MIN <= v <= VOLUME_MAX.

(** What a volume command can leave behind: one warning and nothing else,
    or one [set_volume] within the bounds, preceded by at most one read. *)
Definition vol_outcome {collab : Collaborators} (w w' : World) : Prop :=
  (exists r, is_warning r = true /\ w' = logged r w)
  \/ (exists v reads,
        in_range v
        /\ (reads = [] \/ reads = [mixer_get_volume])
        /\ w' = perform (reads ++ [mixer_set_volume v]) w).

Definition is_playback_command (c : CoreCall) : bool :=
  match c with
  | playback_play | playback_stop | playback_pause | playback_resume
  | playback_previous | playback_next => true
  | _ => false
  end.

(** What a playback command can leave behind: one warning and nothing
    else, or calls of which exactly one is a command, a playback one. *)
Definition plb_outcome {collab : Collaborators} (w w' : World) : Prop :=
  (exists r, is_warning r = true /\ w' = logged r w)
  \/ (exists cs c,
        w' = perform cs w
        /\ commands cs = [c] /\ is_playback_command c = true).

(** The direct value that does what [toggle] does in each state. *)
Definition toggle_word (s : PlaybackState) : string :=
  match s with
  | PLAYING => "pause"
  | PAUSED => "resume"
  | STOPPED => "play"
  end.

(** The world after the handler took the payloads one after the other,
    each message on its own. *)
Definition after_each (handler : string -> M unit) (values : list string)
  (w : World) : World :=
  fold_left (fun w v => snd (handler v w)) values w.

Definition nonempty (s : string) : bool := negb (s =? "").

(** * Properties *)

(** ** Parsing and clamping *)

Lemma digit_is_plain (c : ascii) :
  is_digit c = true ->
  is_space c = false /\ Ascii.eqb c "+"%char = false
  /\ Ascii.eqb c "-"%char = false /\ Ascii.eqb c "_"%char = false.
Proof.
  destruct c as [[] [] [] [] [] [] [] []]; vm_compute; intro H;
    try discriminate H; repeat split.
Qed.

Lemma lstrip_digits (l : list ascii) :
  Forall (fun c => is_digit c = true) l -> lstrip l = l.
Proof.
  intros H. destruct H as [|c r Hc _]; [reflexivity|].
  simpl. destruct (digit_is_plain c Hc) as [-> _]. reflexivity.
Qed.

Lemma strip_digits (l : list ascii) :
  Forall (fun c => is_digit c = true) l -> strip l = l.
Proof.
  intros H. unfold strip. rewrite (lstrip_digits l H).
  rewrite lstrip_digits by (apply Forall_rev; exact H).
  apply rev_involutive.
Qed.

Lemma scan_digits_run (l : list ascii) :
  Forall (fun c => is_digit c = true) l ->
  forall acc,
    scan_digits acc true l
    = Some (fold_left (fun a c => 10 * a + digit_val c) l acc).
Proof.
  induction 1 as [|c r Hc _ IH]; intros acc; simpl; [reflexivity|].
  rewrite Hc. apply IH.
Qed.

Lemma py_int_numeral (s : string) :
  numeral s -> py_int s = Some (numeral_value s).
Proof.
  intros [Hne Hall]. unfold py_int, numeral_value.
  rewrite (strip_digits _ Hall).
  destruct s as [|c r]; [congruence|]. simpl in *.
  inversion Hall as [|c' r' Hc Hr]; subst.
  destruct (digit_is_plain c Hc) as (_ & -> & -> & _).
  rewrite Hc. apply scan_digits_run. exact Hr.
Qed.

Lemma clamp_min_max (x : Z) :
  Z.max (Z.min x VOLUME_MAX) VOLUME_MIN = clamp x 0 100.
Proof.
  unfold clamp, VOLUME_MAX, VOLUME_MIN.
  destruct (Z.ltb_spec x 0); destruct (Z.ltb_spec 100 x); lia.
Qed.

Lemma numeral_tail_long (operator : ascii) (N : string) :
  numeral N ->
  (String operator N =? "") || (String.length (String operator N) <? 2)%nat
  = false.
Proof.
  intros [Hne _]. destruct N as [|c r]; [congruence|]. reflexivity.
Qed.

Lemma snoc_differs {A : Type} (l : list A) (x : A) : (l ++ [x])%list <> l.
Proof.
  intros H. apply (f_equal (@List.length A)) in H.
  rewrite length_app in H. simpl in H. lia.
Qed.

Section Properties.

Context {collab : Collaborators}.

(** ** Volume control *)

(** C1. For a payload made of an operator '=', '-' or '+' followed by a
    numeral N, and any current volume V, the handler returns normally and
    the only command it sends to the core is [mixer.set_volume] with
    [clamp (op V N) 0 100], which becomes the player's volume: N itself for
    '=', V-N for '-', V+N for '+'.  The relative operators read the volume
    once before writing it; nothing is published or logged. *)
Theorem vol_sets_clamped (operator : ascii) (N : string) (w : World) :
  is_volume_operator operator = true ->
  numeral N ->
  let V := mixer_volume (player w) in
  let target := clamp (volume_op operator V (numeral_value N)) 0 100 in
  let reads :=
    if Ascii.eqb operator "="%char then [] else [mixer_get_volume] in
  on_action_vol (String operator N) w
  = (Returned tt, perform (reads ++ [mixer_set_volume target]) w)
  /\ mixer_volume (player (snd (on_action_vol (String operator N) w)))
     = target
  /\ commands (reads ++ [mixer_set_volume target])
     = [mixer_set_volume target].
Proof.
  intros Hop HN V target reads.
  assert (Hrun : on_action_vol (String operator N) w
                 = (Returned tt,
                    perform (reads ++ [mixer_set_volume target]) w)).
  { unfold on_action_vol. rewrite (numeral_tail_long operator N HN).
    rewrite (py_int_numeral N HN).
    subst reads target. unfold volume_op, is_volume_operator in *.
    destruct (Ascii.eqb operator "="%char).
    - unfold set_volume. rewrite clamp_min_max. reflexivity.
    - destruct (Ascii.eqb operator "-"%char).
      + unfold set_volume, volume, bind, core, answer, perform. simpl.
        rewrite clamp_min_max. rewrite <- app_assoc. reflexivity.
      + destruct (Ascii.eqb operator "+"%char); [|discriminate Hop].
        unfold set_volume, volume, bind, core, answer, perform. simpl.
        rewrite clamp_min_max. rewrite <- app_assoc. reflexivity. }
  split; [exact Hrun|]. split.
  - rewrite Hrun. subst reads.
    destruct (Ascii.eqb operator "="%char); reflexivity.
  - subst reads. destruct (Ascii.eqb operator "="%char); reflexivity.
Qed.

(** ** The handlers, case by case *)

Lemma vol_malformed_run (value : string) (w : World) :
  malformed_int value = true ->
  exists r, is_warning r = true
            /\ on_action_vol value w = (Returned tt, logged r w).
Proof.
  intros H. unfold on_action_vol.
  destruct value as [|operator [|c r]].
  - eexists (warning _ _). split; reflexivity.
  - eexists (warning _ _). split; reflexivity.
  - simpl in H.
    replace ((String operator (String c r) =? "")
             || (String.length (String operator (String c r)) <? 2)%nat)
      with false by reflexivity.
    destruct (py_int (String c r)) as [amount|].
    + unfold is_volume_operator in H.
      destruct (Ascii.eqb operator "="%char); [discriminate H|].
      destruct (Ascii.eqb operator "-"%char); [discriminate H|].
      destruct (Ascii.eqb operator "+"%char); [discriminate H|].
      eexists (warning _ _). split; reflexivity.
    + eexists (warning _ _). split; reflexivity.
Qed.

Lemma not_listed (v : string) (l : list string) :
  negb (existsb (String.eqb v) l) = true -> ~ In v l.
Proof.
  intros H Hin. apply negb_true_iff in H.
  assert (E : existsb (String.eqb v) l = true).
  { apply existsb_exists. exists v. split; [exact Hin|apply String.eqb_refl]. }
  congruence.
Qed.

Ltac differs H v lit :=
  let E := fresh "E" in
  assert (E : (v =? lit) = false)
    by (apply String.eqb_neq; intros ->; apply H; simpl; tauto);
  rewrite E; clear E.

Lemma plb_unknown_run (value : string) (w : World) :
  ~ In value plb_values ->
  on_action_plb value w
  = (Returned tt,
     logged (warning "Unknown playback control action: %s" [VStr value]) w).
Proof.
  intros H. unfold on_action_plb.
  differs H value "play". differs H value "stop". differs H value "pause".
  differs H value "resume". differs H value "toggle".
  differs H value "prev". differs H value "next".
  reflexivity.
Qed.

Lemma inf_unknown_run (value : string) (w : World) :
  ~ In value inf_values ->
  on_action_inf value w
  = (Returned tt,
     logged (warning "Unkown information request: %s" [VStr value]) w).
Proof.
  intros H. unfold on_action_inf.
  differs H value "state". differs H value "volume".
  differs H value "queue". reflexivity.
Qed.

Lemma loa_nonempty_run (value : string) (w : World) :
  value <> "" ->
  on_action_loa value w
  = (Raised NotImplementedError, perform [tracklist_clear] w).
Proof.
  intros H. unfold on_action_loa.
  apply String.eqb_neq in H. rewrite H. reflexivity.
Qed.

Lemma src_nonempty_run (value : string) (w : World) :
  value <> "" -> on_action_src value w = (Raised NotImplementedError, w).
Proof.
  intros H. unfold on_action_src.
  apply String.eqb_neq in H. rewrite H. reflexivity.
Qed.

Lemma add_nonempty_run (value : string) (w : World) :
  value <> "" ->
  on_action_add value w
  = (Returned tt, perform [tracklist_add None None (Some value) None] w).
Proof.
  intros H. unfold on_action_add.
  apply String.eqb_neq in H. rewrite H. reflexivity.
Qed.

Lemma toggle_run (w : World) :
  let s := playback_state (player w) in
  on_action_plb "toggle" w
  = (Returned tt,
     perform (repeat playback_get_state (toggle_reads s) ++ [toggle_call s])
             w).
Proof.
  destruct w as [[v s q] cs ob lg].
  unfold on_action_plb, current_state, bind, core, answer, perform.
  destruct s; simpl; repeat rewrite <- app_assoc; reflexivity.
Qed.

(** C3, as amended.  A volume payload shorter than two characters, or
    whose tail after the first character is rejected by [int], or whose
    first character is none of '=', '-', '+', makes the handler return
    normally with one warning appended to the log and nothing else touched:
    no call reaches the core, so the volume is as before. *)
Theorem vol_malformed_ignored (value : string) (w : World) :
  malformed_int value = true ->
  exists r, is_warning r = true
            /\ on_action_vol value w = (Returned tt, logged r w)
            /\ volume_kept_and_warned w (snd (on_action_vol value w)).
Proof.
  intros H. destruct (vol_malformed_run value w H) as (r & Hr & Hrun).
  exists r. split; [exact Hr|]. split; [exact Hrun|].
  rewrite Hrun. split; [reflexivity|]. exists r. split; [exact Hr|reflexivity].
Qed.

(** ** Playback control *)

(** C4. With value 'toggle' the handler makes exactly one playback call,
    the one the current state determines: pause when PLAYING, resume when
    PAUSED, play when STOPPED.  The call is preceded only by the reads of
    the state that select it; the handler returns normally and publishes
    and logs nothing. *)
Theorem toggle_invokes_state_call (w : World) :
  (playback_state (player w) = PLAYING ->
   on_action_plb "toggle" w
   = (Returned tt, perform [playback_get_state; playback_pause] w))
  /\ (playback_state (player w) = PAUSED ->
      on_action_plb "toggle" w
      = (Returned tt,
         perform [playback_get_state; playback_get_state; playback_resume]
                 w))
  /\ (playback_state (player w) = STOPPED ->
      on_action_plb "toggle" w
      = (Returned tt,
         perform [playback_get_state; playback_get_state;
                  playback_get_state; playback_play] w))
  /\ commands (calls (snd (on_action_plb "toggle" w)))
     = (commands (calls w) ++ [toggle_call (playback_state (player w))])%list.
Proof.
  pose proof (toggle_run w) as Hrun. simpl in Hrun.
  repeat split.
  - intros E. rewrite Hrun, E. reflexivity.
  - intros E. rewrite Hrun, E. reflexivity.
  - intros E. rewrite Hrun, E. reflexivity.
  - rewrite Hrun. simpl. unfold commands. rewrite filter_app.
    destruct (playback_state (player w)); reflexivity.
Qed.

(** C8. A value outside play, stop, pause, resume, toggle, prev and next
    makes the handler return normally with one warning appended to the log
    and nothing else touched: no call is made on the core and the player is
    as before. *)
Theorem plb_unknown_ignored (value : string) (w : World) :
  ~ In value plb_values ->
  exists r, is_warning r = true
            /\ on_action_plb value w = (Returned tt, logged r w)
            /\ calls (logged r w) = calls w
            /\ player (logged r w) = player w.
Proof.
  intros H. eexists. split; [|split; [apply (plb_unknown_run value w H)|]].
  - reflexivity.
  - split; reflexivity.
Qed.

(** ** Events *)

(** C5. Each of the five listener callbacks returns normally having handed
    exactly one message to the bus, makes no call on the core and leaves
    the player alone (it also writes one debug record): the new state on
    'sta', the formatted track on 'trk', the empty string on 'trk' whatever
    the track and the position, the decimal form of the volume on 'vol',
    the formatted stream title on 'trk'. *)
Theorem events_publish_once
  (old_state new_state : PlaybackState) (tl_track : TlTrack)
  (time_position vol : Z) (title : string) (w : World) :
  playback_state_changed old_state new_state w
  = (Returned tt,
     published (message "sta" (state_value new_state))
       (logged (debug "MQTT playback state changed: %s" [VState new_state])
               w))
  /\ track_playback_started tl_track w
     = (Returned tt,
        published (message "trk" (describe_track (track tl_track)))
          (logged (debug "MQTT track started: %s" [VTrack (track tl_track)])
                  w))
  /\ track_playback_ended tl_track time_position w
     = (Returned tt,
        published (message "trk" "")
          (logged (debug "MQTT track ended: %s"
                         [VStr (track_name (track tl_track))]) w))
  /\ volume_changed vol w
     = (Returned tt,
        published (message "vol" (py_str vol))
          (logged (debug "MQTT volume changed: %s" [VInt vol]) w))
  /\ stream_title_changed title w
     = (Returned tt,
        published (message "trk" (describe_stream title))
          (logged (debug "MQTT title changed: %s" [VStr title]) w)).
Proof.
  repeat split.
Qed.

(** ** Inquiries *)

(** C6. With value 'state' the handler reads the playback state and hands
    exactly one message to the bus, that state on 'sta'; with value
    'volume' it reads the volume and hands exactly one message to the bus,
    the volume's decimal form on 'vol'.  Either way it returns normally,
    leaves the player as it was and logs nothing. *)
Theorem inf_publishes_current (w : World) :
  on_action_inf "state" w
  = (Returned tt,
     published (message "sta" (state_value (playback_state (player w))))
               (perform [playback_get_state] w))
  /\ on_action_inf "volume" w
     = (Returned tt,
        published (message "vol" (py_str (mixer_volume (player w))))
                  (perform [mixer_get_volume] w))
  /\ player (perform [playback_get_state] w) = player w
  /\ player (perform [mixer_get_volume] w) = player w.
Proof.
  repeat split.
Qed.

(** ** The queue *)

(** C7, at the code.  With the empty payload the handler returns normally
    with one warning appended to the log and nothing else touched, as the
    claim says.  With any other payload it returns normally having made
    the single call [tracklist.add(tracks=None, at_position=None,
    uri=value, uris=None)]; the core refuses the keyword [uri], so the
    queue, and the whole player, is as before: the URI is not appended,
    against the claim and against the handler's own docstring. *)
Theorem add_warns_or_is_refused (value : string) (w : World) :
  on_action_add "" w
  = (Returned tt, logged (warning "Cannot add empty track to queue" []) w)
  /\ (value <> "" ->
      let w' := perform [tracklist_add None None (Some value) None] w in
      on_action_add value w = (Returned tt, w')
      /\ player w' = player w
      /\ tracklist (player w') <> (tracklist (player w) ++ [value])%list).
Proof.
  split; [reflexivity|]. intros H w'. split.
  - apply add_nonempty_run. exact H.
  - split; [reflexivity|]. simpl. intros E. symmetry in E.
    exact (snoc_differs _ _ E).
Qed.

(** C9. With any non-empty payload the handler first clears the queue and
    then raises NotImplementedError: the call has been made when the
    exception leaves the handler, the queue is empty afterwards, and a
    queue that held anything is not what it was. *)
Theorem loa_clears_then_raises (value : string) (w : World) :
  value <> "" ->
  let w' := perform [tracklist_clear] w in
  on_action_loa value w = (Raised NotImplementedError, w')
  /\ tracklist (player w') = []
  /\ (tracklist (player w) <> [] ->
      tracklist (player (snd (on_action_loa value w)))
      <> tracklist (player w)).
Proof.
  intros H w'. split; [apply loa_nonempty_run; exact H|].
  split; [reflexivity|].
  intros Hq. rewrite (loa_nonempty_run value w H). simpl. congruence.
Qed.

(** C10. With the empty payload, 'loa' and 'src' return normally with one
    warning appended to the log and nothing else touched: no call on the
    core, no change to player or queue.  NotImplementedError is raised
    exactly when the payload is not empty. *)
Theorem empty_payload_only_warns (value : string) (w : World) :
  on_action_loa "" w
  = (Returned tt, logged (warning "Cannot load unnamed playlist" []) w)
  /\ on_action_src "" w
     = (Returned tt, logged (warning "Cannot search without a query" []) w)
  /\ (fst (on_action_loa value w) = Raised NotImplementedError
      <-> value <> "")
  /\ (fst (on_action_src value w) = Raised NotImplementedError
      <-> value <> "").
Proof.
  split; [reflexivity|]. split; [reflexivity|]. split; split.
  - intros E ->. discriminate E.
  - intros H. rewrite (loa_nonempty_run value w H). reflexivity.
  - intros E ->. discriminate E.
  - intros H. rewrite (src_nonempty_run value w H). reflexivity.
Qed.

(** ** The dispatch boundary *)

Lemma dispatch_returns (suffix body : string) (w : World) :
  fst (dispatch suffix body w) = Returned tt.
Proof.
  unfold dispatch. destruct (handler_for suffix) as [handler|].
  - destruct (handler body w) as [[[]|e] w']; reflexivity.
  - reflexivity.
Qed.

Lemma dispatch_cases (suffix body : string) (w : World) :
  (rejected suffix body = true ->
   exists r, is_warning r = true
             /\ snd (dispatch suffix body w) = logged r w)
  /\ (unimplemented suffix body = true ->
      log (snd (dispatch suffix body w))
      = (log w ++ [failure suffix NotImplementedError])%list
      /\ outbox (snd (dispatch suffix body w)) = outbox w).
Proof.
  unfold dispatch, handler_for, rejected, unimplemented.
  destruct (String.eqb_spec suffix "plb") as [->|_].
  { split; [|discriminate]. intros H. apply not_listed in H.
    rewrite (plb_unknown_run body w H).
    eexists (warning _ _). split; reflexivity. }
  destruct (String.eqb_spec suffix "vol") as [->|_].
  { split; [|discriminate]. intros H.
    destruct (vol_malformed_run body w H) as (r & Hr & Hrun).
    rewrite Hrun. exists r. split; [exact Hr|reflexivity]. }
  destruct (String.eqb_spec suffix "add") as [->|_].
  { split; [|discriminate]. intros H. apply String.eqb_eq in H. subst body.
    eexists (warning _ _). split; reflexivity. }
  destruct (String.eqb_spec suffix "loa") as [->|_].
  { destruct (String.eqb_spec body "") as [->|Hne].
    - split; [|discriminate]. intros _.
      eexists (warning _ _). split; reflexivity.
    - split; [discriminate|]. intros _.
      rewrite (loa_nonempty_run body w Hne). split; reflexivity. }
  destruct (String.eqb_spec suffix "clr") as [->|_].
  { split; discriminate. }
  destruct (String.eqb_spec suffix "src") as [->|_].
  { destruct (String.eqb_spec body "") as [->|Hne].
    - split; [|discriminate]. intros _.
      eexists (warning _ _). split; reflexivity.
    - split; [discriminate|]. intros _.
      rewrite (src_nonempty_run body w Hne). split; reflexivity. }
  destruct (String.eqb_spec suffix "inf") as [->|_].
  { destruct (String.eqb_spec body "queue") as [->|Hne].
    - split; [discriminate|]. intros _. split; reflexivity.
    - split; [|discriminate]. intros H. apply not_listed in H.
      rewrite (inf_unknown_run body w H).
      eexists (warning _ _). split; reflexivity. }
  split; [|discriminate]. intros _.
  eexists (warning _ _). split; reflexivity.
Qed.

(** C2. For every topic suffix and payload the dispatcher returns normally,
    whatever the handler did.  A message rejected on validation (unknown
    action code, unknown playback or information value, malformed volume,
    empty URI, playlist name or query) leaves one warning in the log and
    touches nothing else.  A message for an unimplemented action ('loa' or
    'src' with a non-empty payload, 'inf' with 'queue') leaves the record
    of a NotImplementedError as the last entry of the log and hands nothing
    to the bus. *)
Theorem dispatch_never_raises (suffix body : string) (w : World) :
  exists w',
    dispatch suffix body w = (Returned tt, w')
    /\ (rejected suffix body = true ->
        exists r, is_warning r = true /\ w' = logged r w)
    /\ (unimplemented suffix body = true ->
        log w' = (log w ++ [failure suffix NotImplementedError])%list
        /\ outbox w' = outbox w).
Proof.
  exists (snd (dispatch suffix body w)). split.
  - rewrite <- (dispatch_returns suffix body w). apply surjective_pairing.
  - apply dispatch_cases.
Qed.

End Properties.

(** * The statements at concrete inputs *)

(** '+10' at volume 95 sets the volume to 100. *)
Lemma vol_sets_clamped_witness :
  is_volume_operator "+"%char = true
  /\ numeral "10"
  /\ on_action_vol (collab := sample_collaborators) "+10" sample_world
     = (Returned tt,
        perform (collab := sample_collaborators)
                [mixer_get_volume; mixer_set_volume 100] sample_world).
Proof.
  assert (Hn : numeral "10") by (split; [discriminate|repeat constructor]).
  split; [reflexivity|]. split; [exact Hn|].
  exact (proj1 (vol_sets_clamped (collab := sample_collaborators)
                  "+"%char "10" sample_world eq_refl Hn)).
Defined.

(** 'vol' with '=x' is rejected at the dispatcher with one warning. *)
Lemma dispatch_never_raises_witness :
  rejected "vol" "=x" = true
  /\ exists w' r,
       dispatch (collab := sample_collaborators) "vol" "=x" sample_world
       = (Returned tt, w')
       /\ is_warning r = true /\ w' = logged r sample_world.
Proof.
  split; [reflexivity|].
  destruct (dispatch_never_raises (collab := sample_collaborators)
              "vol" "=x" sample_world) as (w' & Hrun & Hrej & _).
  destruct (Hrej eq_refl) as (r & Hr & Hw).
  exists w', r. split; [exact Hrun|]. split; [exact Hr|exact Hw].
Defined.

(** '=+7' has a tail that is not a string of digits, and yet at volume 95
    the handler sets the volume to 7 and logs nothing. *)
Lemma vol_signed_tail_applied :
  ~ (forall (collab : Collaborators) (value : string) (w : World),
        malformed_digits value = true ->
        volume_kept_and_warned w (snd (on_action_vol value w))).
Proof.
  intros H.
  destruct (H sample_collaborators "=+7" sample_world eq_refl) as [Hv _].
  vm_compute in Hv. discriminate Hv.
Qed.

(** '=x' is ignored with a warning. *)
Lemma vol_malformed_ignored_witness :
  malformed_int "=x" = true
  /\ exists r,
       is_warning r = true
       /\ on_action_vol (collab := sample_collaborators) "=x" sample_world
          = (Returned tt, logged r sample_world).
Proof.
  split; [reflexivity|].
  destruct (vol_malformed_ignored (collab := sample_collaborators)
              "=x" sample_world eq_refl) as (r & Hr & Hrun & _).
  exists r. split; [exact Hr|exact Hrun].
Defined.

(** 'toggle' while PLAYING pauses. *)
Lemma toggle_invokes_state_call_witness :
  playback_state (player sample_world) = PLAYING
  /\ on_action_plb (collab := sample_collaborators) "toggle" sample_world
     = (Returned tt,
        perform (collab := sample_collaborators)
                [playback_get_state; playback_pause] sample_world).
Proof.
  split; [reflexivity|].
  exact (proj1 (toggle_invokes_state_call (collab := sample_collaborators)
                  sample_world) eq_refl).
Defined.

(** 'add' with a URI leaves the two tracks already queued and no third. *)
Lemma add_warns_or_is_refused_witness :
  "local:track:9" <> ""
  /\ tracklist
       (player (snd (on_action_add (collab := sample_collaborators)
                       "local:track:9" sample_world)))
     = ["local:track:1"; "local:track:2"].
Proof.
  assert (Hne : "local:track:9" <> "") by discriminate.
  split; [exact Hne|].
  destruct (proj2 (add_warns_or_is_refused (collab := sample_collaborators)
                     "local:track:9" sample_world) Hne)
    as (Hrun & Hp & _).
  rewrite Hrun. cbn [snd]. rewrite Hp. reflexivity.
Defined.

(** 'plb' with 'rewind' is ignored with a warning. *)
Lemma plb_unknown_ignored_witness :
  ~ In "rewind" plb_values
  /\ exists r,
       is_warning r = true
       /\ on_action_plb (collab := sample_collaborators) "rewind"
                        sample_world
          = (Returned tt, logged r sample_world).
Proof.
  assert (Hout : ~ In "rewind" plb_values)
    by (apply not_listed; reflexivity).
  split; [exact Hout|].
  destruct (plb_unknown_ignored (collab := sample_collaborators)
              "rewind" sample_world Hout) as (r & Hr & Hrun & _).
  exists r. split; [exact Hr|exact Hrun].
Defined.

(** 'loa' with a playlist name empties the queue of two and raises. *)
Lemma loa_clears_then_raises_witness :
  "jazz" <> ""
  /\ on_action_loa (collab := sample_collaborators) "jazz" sample_world
     = (Raised NotImplementedError,
        perform (collab := sample_collaborators) [tracklist_clear]
                sample_world)
  /\ tracklist
       (player (snd (on_action_loa (collab := sample_collaborators)
                       "jazz" sample_world)))
     <> tracklist (player sample_world).
Proof.
  assert (Hne : "jazz" <> "") by discriminate.
  split; [exact Hne|].
  destruct (loa_clears_then_raises (collab := sample_collaborators)
              "jazz" sample_world Hne) as (Hrun & _ & Hq).
  split; [exact Hrun|]. apply Hq. discriminate.
Defined.

(** 'src' with a query raises. *)
Lemma empty_payload_only_warns_witness :
  "miles" <> ""
  /\ fst (on_action_src "miles" sample_world) = Raised NotImplementedError.
Proof.
  assert (Hne : "miles" <> "") by discriminate.
  split; [exact Hne|].
  destruct (empty_payload_only_warns (collab := sample_collaborators)
              "miles" sample_world) as (_ & _ & _ & Hsrc).
  apply Hsrc. exact Hne.
Defined.

(** * Further properties of the handlers *)

(** ** Signs and the decimal form *)

Lemma lstrip_head (c : ascii) (r : list ascii) :
  is_space c = false -> lstrip (c :: r) = c :: r.
Proof. intros H. simpl. rewrite H. reflexivity. Qed.

Lemma strip_signed (sign : ascii) (l : list ascii) :
  is_space sign = false -> l <> [] ->
  Forall (fun c => is_digit c = true) l ->
  strip (sign :: l) = sign :: l.
Proof.
  intros Hs Hne Hall. unfold strip. rewrite (lstrip_head sign l Hs).
  assert (Hrev : Forall (fun c => is_digit c = true) (rev l))
    by (apply Forall_rev; exact Hall).
  simpl. destruct (rev l) as [|d r] eqn:E.
  - apply (f_equal (@rev ascii)) in E. rewrite rev_involutive in E.
    simpl in E. contradiction.
  - inversion Hrev as [|d' r' Hd _]; subst.
    change ((d :: r) ++ [sign])%list with (d :: (r ++ [sign]))%list.
    rewrite lstrip_head by (apply digit_is_plain; exact Hd).
    change (d :: (r ++ [sign]))%list with ((d :: r) ++ [sign])%list.
    rewrite <- E. rewrite rev_app_distr, rev_involutive. reflexivity.
Qed.

Lemma numeral_digits (s : string) :
  numeral s ->
  list_ascii_of_string s <> []
  /\ Forall (fun c => is_digit c = true) (list_ascii_of_string s).
Proof.
  intros [Hne Hall]. split; [|exact Hall].
  destruct s; [congruence|discriminate].
Qed.

Lemma scan_numeral (s : string) :
  numeral s ->
  scan_digits 0 false (list_ascii_of_string s) = Some (numeral_value s).
Proof.
  intros [Hne Hall]. unfold numeral_value.
  destruct s as [|c r]; [congruence|]. simpl in *.
  inversion Hall as [|c' r' Hc Hr]; subst.
  rewrite Hc. apply scan_digits_run. exact Hr.
Qed.

Lemma py_int_minus (N : string) :
  numeral N -> py_int (String "-" N) = Some (- numeral_value N).
Proof.
  intros HN. destruct (numeral_digits N HN) as [Hne Hall].
  unfold py_int. simpl list_ascii_of_string.
  rewrite (strip_signed "-"%char _ eq_refl Hne Hall).
  simpl. rewrite (scan_numeral N HN). reflexivity.
Qed.

Lemma py_int_plus (N : string) :
  numeral N -> py_int (String "+" N) = Some (numeral_value N).
Proof.
  intros HN. destruct (numeral_digits N HN) as [Hne Hall].
  unfold py_int. simpl list_ascii_of_string.
  rewrite (strip_signed "+"%char _ eq_refl Hne Hall).
  simpl. apply (scan_numeral N HN).
Qed.

Lemma digit_val_nonneg (c : ascii) : is_digit c = true -> 0 <= digit_val c.
Proof.
  unfold is_digit, digit_val. generalize (code c). intros n H.
  apply andb_true_iff in H. destruct H as [H _].
  apply Nat.leb_le in H. lia.
Qed.

Lemma numeral_value_nonneg (N : string) : numeral N -> 0 <= numeral_value N.
Proof.
  intros [_ Hall]. unfold numeral_value.
  assert (G : forall l acc,
             Forall (fun c => is_digit c = true) l -> 0 <= acc ->
             0 <= fold_left (fun a c => 10 * a + digit_val c) l acc).
  { induction l as [|c r IH]; intros acc Hl Hacc; cbn [fold_left];
      [exact Hacc|].
    inversion Hl as [|c' r' Hc Hr]; subst. apply IH; [exact Hr|].
    pose proof (digit_val_nonneg c Hc). lia. }
  apply G; [exact Hall|lia].
Qed.

Lemma uint_all_digits (d : Decimal.uint) :
  Forall (fun c => is_digit c = true)
         (list_ascii_of_string (NilEmpty.string_of_uint d)).
Proof.
  induction d; simpl; constructor; try reflexivity; assumption.
Qed.

Lemma digit_vals :
  digit_val "0" = 0 /\ digit_val "1" = 1 /\ digit_val "2" = 2
  /\ digit_val "3" = 3 /\ digit_val "4" = 4 /\ digit_val "5" = 5
  /\ digit_val "6" = 6 /\ digit_val "7" = 7 /\ digit_val "8" = 8
  /\ digit_val "9" = 9.
Proof. repeat split. Qed.

Lemma uint_horner_acc (d : Decimal.uint) :
  forall acc : positive,
    fold_left (fun a c => 10 * a + digit_val c)
              (list_ascii_of_string (NilEmpty.string_of_uint d)) (Z.pos acc)
    = Z.pos (Pos.of_uint_acc d acc).
Proof.
  induction d; intros acc;
    cbn [NilEmpty.string_of_uint list_ascii_of_string fold_left
         Pos.of_uint_acc];
    try reflexivity; rewrite <- IHd; f_equal;
    destruct digit_vals as (E0 & E1 & E2 & E3 & E4 & E5 & E6 & E7 & E8 & E9);
    rewrite ?E0, ?E1, ?E2, ?E3, ?E4, ?E5, ?E6, ?E7, ?E8, ?E9; lia.
Qed.

Lemma uint_horner (d : Decimal.uint) :
  numeral_value (NilEmpty.string_of_uint d) = Z.of_uint d.
Proof.
  unfold numeral_value, Z.of_uint.
  induction d;
    cbn [NilEmpty.string_of_uint list_ascii_of_string fold_left
         Pos.of_uint Z.of_N];
    try reflexivity; try exact IHd;
    rewrite <- uint_horner_acc; f_equal.
Qed.

Lemma pos_numeral (p : positive) :
  NilZero.string_of_uint (Pos.to_uint p)
  = NilEmpty.string_of_uint (Pos.to_uint p)
  /\ numeral (NilEmpty.string_of_uint (Pos.to_uint p))
  /\ numeral_value (NilEmpty.string_of_uint (Pos.to_uint p)) = Z.pos p.
Proof.
  pose proof (Unsigned.to_uint_nonnil p) as Hnn.
  split; [|split].
  - unfold NilZero.string_of_uint.
    destruct (Pos.to_uint p); [congruence|reflexivity..].
  - split; [|apply uint_all_digits].
    destruct (Pos.to_uint p); [congruence|discriminate..].
  - rewrite uint_horner. unfold Z.of_uint.
    rewrite DecimalPos.Unsigned.of_to. reflexivity.
Qed.

Lemma py_int_py_str (n : Z) : py_int (py_str n) = Some n.
Proof.
  unfold py_str. destruct n as [|p|p]; [reflexivity| |];
    destruct (pos_numeral p) as (Hs & Hnum & Hval); simpl; rewrite Hs.
  - rewrite (py_int_numeral _ Hnum), Hval. reflexivity.
  - rewrite (py_int_minus _ Hnum), Hval. reflexivity.
Qed.

Lemma clamp_in_range (x : Z) : in_range (clamp x 0 100).
Proof.
  unfold in_range, clamp, VOLUME_MIN, VOLUME_MAX.
  destruct (Z.ltb_spec x 0); destruct (Z.ltb_spec 100 x); lia.
Qed.

Lemma clamp_fixes (x : Z) : in_range x -> clamp x 0 100 = x.
Proof.
  unfold in_range, clamp, VOLUME_MIN, VOLUME_MAX. intros H.
  destruct (Z.ltb_spec x 0); destruct (Z.ltb_spec 100 x); lia.
Qed.

Section Further.

Context {collab : Collaborators}.

(** ** The volume property *)

(** X1. Writing the [volume] property and reading it back gives the value
    brought into 0..100: what the getter returns after the setter is the
    clamped value, not the one assigned. *)
Theorem volume_set_then_get (x : Z) (w : World) :
  fst ((set_volume x ;; volume) w) = Returned (clamp x 0 100)
  /\ in_range (mixer_volume (player (snd (set_volume x w))))
  /\ (in_range x -> fst ((set_volume x ;; volume) w) = Returned x).
Proof.
  assert (E : fst ((set_volume x ;; volume) w) = Returned (clamp x 0 100)).
  { unfold set_volume, volume, bind, core, answer. simpl.
    rewrite clamp_min_max. reflexivity. }
  split; [exact E|]. split.
  - unfold set_volume, core. simpl. rewrite clamp_min_max.
    apply clamp_in_range.
  - intros H. rewrite E, (clamp_fixes x H). reflexivity.
Qed.

(** ** Volume control, for every payload *)

Lemma vol_wellformed_run (operator : ascii) (rest : string) (amount : Z)
  (w : World) :
  rest <> "" ->
  py_int rest = Some amount ->
  is_volume_operator operator = true ->
  on_action_vol (String operator rest) w
  = (Returned tt,
     perform
       ((if Ascii.eqb operator "="%char then [] else [mixer_get_volume])
        ++ [mixer_set_volume
              (clamp (volume_op operator (mixer_volume (player w)) amount)
                     0 100)]) w).
Proof.
  intros Hne Hint Hop. unfold on_action_vol.
  destruct rest as [|c r]; [congruence|].
  replace ((String operator (String c r) =? "")
           || (String.length (String operator (String c r)) <? 2)%nat)
    with false by reflexivity.
  rewrite Hint. unfold volume_op, is_volume_operator in *.
  destruct (Ascii.eqb operator "="%char).
  - unfold set_volume. rewrite clamp_min_max. reflexivity.
  - destruct (Ascii.eqb operator "-"%char).
    + unfold set_volume, volume, bind, core, answer, perform. simpl.
      rewrite clamp_min_max. rewrite <- app_assoc. reflexivity.
    + destruct (Ascii.eqb operator "+"%char); [|discriminate Hop].
      unfold set_volume, volume, bind, core, answer, perform. simpl.
      rewrite clamp_min_max. rewrite <- app_assoc. reflexivity.
Qed.

Lemma vol_run_outcome (value : string) (w : World) :
  exists w', on_action_vol value w = (Returned tt, w') /\ vol_outcome w w'.
Proof.
  destruct (malformed_int value) eqn:E.
  - destruct (vol_malformed_run value w E) as (r & Hr & Hrun).
    exists (logged r w). split; [exact Hrun|]. left. exists r. auto.
  - destruct value as [|operator [|c r]]; try discriminate E.
    change (malformed_int (String operator (String c r)))
      with (match py_int (String c r) with
            | None => true
            | Some _ => negb (is_volume_operator operator)
            end) in E.
    destruct (py_int (String c r)) as [amount|] eqn:Hint; [|discriminate E].
    apply negb_false_iff in E.
    eexists. split.
    + apply (vol_wellformed_run operator (String c r) amount w);
        [discriminate|exact Hint|exact E].
    + right. eexists _, _. split; [apply clamp_in_range|].
      split; [|reflexivity].
      destruct (Ascii.eqb operator "="%char); auto.
Qed.

Lemma vol_outcome_player (w w' : World) :
  vol_outcome w w' ->
  tracklist (player w') = tracklist (player w)
  /\ playback_state (player w') = playback_state (player w)
  /\ outbox w' = outbox w
  /\ (mixer_volume (player w') = mixer_volume (player w)
      \/ in_range (mixer_volume (player w'))).
Proof.
  intros [(r & _ & ->)|(v & reads & Hv & Hreads & ->)].
  - repeat split. left. reflexivity.
  - destruct Hreads as [->| ->]; repeat split; right; exact Hv.
Qed.


(** X3. Whatever the payload, the volume handler leaves the queue and the
    playback state as they were and hands nothing to the bus. *)
Theorem vol_touches_only_volume (value : string) (w : World) :
  tracklist (player (snd (on_action_vol value w))) = tracklist (player w)
  /\ playback_state (player (snd (on_action_vol value w)))
     = playback_state (player w)
  /\ outbox (snd (on_action_vol value w)) = outbox w.
Proof.
  destruct (vol_run_outcome value w) as (w' & Hrun & Hout).
  rewrite Hrun. simpl.
  destruct (vol_outcome_player w w' Hout) as (Hq & Hs & Ho & _). auto.
Qed.

(** X4. A sign between the operator and the digits is part of the amount:
    with a minus sign the amount is negated, so '--N' raises the volume by
    N, '+-N' lowers it by N and '=-N' sets it to 0; a plus sign changes
    nothing. *)
Theorem vol_signed_amount (operator : ascii) (N : string) (w : World) :
  is_volume_operator operator = true ->
  numeral N ->
  let V := mixer_volume (player w) in
  mixer_volume
    (player (snd (on_action_vol (String operator (String "-" N)) w)))
  = clamp (volume_op operator V (- numeral_value N)) 0 100
  /\ mixer_volume
       (player (snd (on_action_vol (String operator (String "+" N)) w)))
     = clamp (volume_op operator V (numeral_value N)) 0 100
  /\ mixer_volume (player (snd (on_action_vol (String "=" (String "-" N)) w)))
     = 0.
Proof.
  intros Hop HN V.
  assert (Hneg : String "-" N <> "") by discriminate.
  assert (Hpos : String "+" N <> "") by discriminate.
  assert (Hm : forall op, is_volume_operator op = true ->
     mixer_volume (player (snd (on_action_vol (String op (String "-" N)) w)))
     = clamp (volume_op op V (- numeral_value N)) 0 100).
  { intros op Ho.
    rewrite (vol_wellformed_run op _ _ w Hneg (py_int_minus N HN) Ho).
    destruct (Ascii.eqb op "="%char); reflexivity. }
  split; [apply Hm; exact Hop|]. split.
  - rewrite (vol_wellformed_run operator _ _ w Hpos (py_int_plus N HN) Hop).
    destruct (Ascii.eqb operator "="%char); reflexivity.
  - rewrite (Hm "="%char eq_refl). unfold volume_op, clamp. simpl.
    pose proof (numeral_value_nonneg N HN) as Hnn.
    destruct (Z.ltb_spec (- numeral_value N) 0); [reflexivity|].
    destruct (Z.ltb_spec 100 (- numeral_value N)); lia.
Qed.

(** X5. The three complaints of the volume handler and their order: a
    payload shorter than two characters is reported whole; otherwise a
    tail that [int] rejects is reported, whatever the first character is;
    only a payload whose tail parses has its first character reported as
    an unknown operator. *)
Theorem vol_complaints (operator : ascii) (rest : string) (w : World) :
  on_action_vol "" w
  = (Returned tt,
     logged (warning "Invalid volume control parameter: %s" [VStr ""]) w)
  /\ on_action_vol (String operator "") w
     = (Returned tt,
        logged (warning "Invalid volume control parameter: %s"
                        [VStr (String operator "")]) w)
  /\ (rest <> "" -> py_int rest = None ->
      on_action_vol (String operator rest) w
      = (Returned tt,
         logged (warning "Invalid volume setting value: %s" [VStr rest]) w))
  /\ (rest <> "" -> py_int rest <> None ->
      is_volume_operator operator = false ->
      on_action_vol (String operator rest) w
      = (Returned tt,
         logged (warning "Unknown volume control operator: %s"
                         [VStr (String operator "")]) w)).
Proof.
  split; [reflexivity|]. split; [reflexivity|]. split.
  - intros Hne Hint. unfold on_action_vol.
    destruct rest as [|c r]; [congruence|].
    replace ((String operator (String c r) =? "")
             || (String.length (String operator (String c r)) <? 2)%nat)
      with false by reflexivity.
    rewrite Hint. reflexivity.
  - intros Hne Hint Hop. unfold on_action_vol.
    destruct rest as [|c r]; [congruence|].
    replace ((String operator (String c r) =? "")
             || (String.length (String operator (String c r)) <? 2)%nat)
      with false by reflexivity.
    destruct (py_int (String c r)) as [amount|]; [|congruence].
    unfold is_volume_operator in Hop.
    destruct (Ascii.eqb operator "="%char); [discriminate Hop|].
    destruct (Ascii.eqb operator "-"%char); [discriminate Hop|].
    destruct (Ascii.eqb operator "+"%char); [discriminate Hop|].
    reflexivity.
Qed.

(** X6. Setting an absolute volume is idempotent on the player: sending
    the same '=' payload twice leaves the player as sending it once,
    whether the payload is well formed or not. *)
Theorem vol_set_twice (rest : string) (w : World) :
  let once := snd (on_action_vol (String "=" rest) w) in
  player (snd (on_action_vol (String "=" rest) once)) = player once.
Proof.
  intros once. subst once.
  destruct (malformed_int (String "=" rest)) eqn:E.
  - destruct (vol_malformed_run _ w E) as (r & _ & Hrun). rewrite Hrun.
    cbn [snd]. destruct (vol_malformed_run _ (logged r w) E) as (r' & _ & Hrun').
    rewrite Hrun'. reflexivity.
  - destruct rest as [|c r]; [discriminate E|].
    change (malformed_int (String "=" (String c r)))
      with (match py_int (String c r) with
            | None => true
            | Some _ => negb (is_volume_operator "="%char)
            end) in E.
    destruct (py_int (String c r)) as [amount|] eqn:Hint; [|discriminate E].
    assert (Hne : String c r <> "") by discriminate.
    rewrite (vol_wellformed_run "="%char _ amount w Hne Hint eq_refl).
    cbn [snd].
    rewrite (vol_wellformed_run "="%char _ amount _ Hne Hint eq_refl).
    reflexivity.
Qed.

Lemma vol_numeral_volume (operator : ascii) (N : string) (w : World) :
  is_volume_operator operator = true ->
  numeral N ->
  mixer_volume (player (snd (on_action_vol (String operator N) w)))
  = clamp (volume_op operator (mixer_volume (player w)) (numeral_value N))
          0 100.
Proof.
  intros Hop HN.
  assert (Hne : N <> "") by (destruct HN; assumption).
  rewrite (vol_wellformed_run operator N _ w Hne (py_int_numeral N HN) Hop).
  destruct (Ascii.eqb operator "="%char); reflexivity.
Qed.

(** X7. Raising the volume by N and then lowering it by N restores it when
    no clamping intervened: for a volume V of at least 0 with V+N at most
    100, '+N' followed by '-N' ends at V. *)
Theorem vol_up_then_down (N : string) (w : World) :
  numeral N ->
  0 <= mixer_volume (player w) ->
  mixer_volume (player w) + numeral_value N <= 100 ->
  mixer_volume
    (player (snd (on_action_vol (String "-" N)
                    (snd (on_action_vol (String "+" N) w)))))
  = mixer_volume (player w).
Proof.
  intros HN Hlo Hhi.
  pose proof (numeral_value_nonneg N HN) as Hnn.
  rewrite (vol_numeral_volume "-"%char N _ eq_refl HN).
  rewrite (vol_numeral_volume "+"%char N w eq_refl HN).
  unfold volume_op. simpl.
  rewrite (clamp_fixes (mixer_volume (player w) + numeral_value N))
    by (unfold in_range, VOLUME_MIN, VOLUME_MAX; lia).
  rewrite clamp_fixes by (unfold in_range, VOLUME_MIN, VOLUME_MAX; lia).
  lia.
Qed.

(** X8. From a volume within 0..100, '+N' never lowers the volume and
    '-N' never raises it, and both end within 0..100. *)
Theorem vol_relative_monotone (N : string) (w : World) :
  numeral N ->
  in_range (mixer_volume (player w)) ->
  let V := mixer_volume (player w) in
  let up := mixer_volume (player (snd (on_action_vol (String "+" N) w))) in
  let down := mixer_volume (player (snd (on_action_vol (String "-" N) w))) in
  V <= up <= 100 /\ 0 <= down <= V.
Proof.
  intros HN Hr V up down. subst up down.
  pose proof (numeral_value_nonneg N HN) as Hnn.
  rewrite (vol_numeral_volume "+"%char N w eq_refl HN).
  rewrite (vol_numeral_volume "-"%char N w eq_refl HN).
  unfold volume_op, clamp, in_range, VOLUME_MIN, VOLUME_MAX in *. simpl.
  fold V.
  destruct (Z.ltb_spec (V + numeral_value N) 0);
    destruct (Z.ltb_spec 100 (V + numeral_value N));
    destruct (Z.ltb_spec (V - numeral_value N) 0);
    destruct (Z.ltb_spec 100 (V - numeral_value N)); lia.
Qed.

Lemma vol_step_in_range (value : string) (w : World) :
  in_range (mixer_volume (player w)) ->
  in_range (mixer_volume (player (snd (on_action_vol value w)))).
Proof.
  intros H. destruct (vol_run_outcome value w) as (w' & Hrun & Hout).
  rewrite Hrun. cbn [snd].
  destruct (vol_outcome_player w w' Hout) as (_ & _ & _ & [-> | Hv]);
    assumption.
Qed.

(** X9. The bounds are an invariant of the volume handler: starting from a
    volume within 0..100, any sequence of 'vol' payloads, well formed or
    not, leaves the volume within 0..100. *)
Theorem vol_stays_in_range (values : list string) (w : World) :
  in_range (mixer_volume (player w)) ->
  in_range (mixer_volume (player (after_each on_action_vol values w))).
Proof.
  revert w. induction values as [|v vs IH]; intros w H; [exact H|].
  unfold after_each in *. cbn [fold_left]. apply IH.
  apply vol_step_in_range. exact H.
Qed.

(** X10. What the bridge publishes on 'vol' can be sent back to it: for
    any volume V, the payload '=' followed by [str(V)] sets the volume to V
    brought into 0..100, hence to V itself when V is within the bounds. *)
Theorem vol_accepts_published (V : Z) (w : World) :
  mixer_volume (player (snd (on_action_vol (String "=" (py_str V)) w)))
  = clamp V 0 100
  /\ (in_range V ->
      mixer_volume (player (snd (on_action_vol (String "=" (py_str V)) w)))
      = V).
Proof.
  assert (Hne : py_str V <> "").
  { intros E. pose proof (py_int_py_str V) as H. rewrite E in H.
    discriminate H. }
  assert (E : mixer_volume
                (player (snd (on_action_vol (String "=" (py_str V)) w)))
              = clamp V 0 100).
  { rewrite (vol_wellformed_run "="%char _ V w Hne (py_int_py_str V)
               eq_refl).
    reflexivity. }
  split; [exact E|]. intros H. rewrite E. apply clamp_fixes. exact H.
Qed.

(** ** Playback control, for every value *)

Lemma plb_run_outcome (value : string) (w : World) :
  exists w', on_action_plb value w = (Returned tt, w') /\ plb_outcome w w'.
Proof.
  destruct (existsb (String.eqb value) plb_values) eqn:E.
  - apply existsb_exists in E. destruct E as (x & Hin & Hx).
    apply String.eqb_eq in Hx. subst x. simpl in Hin.
    destruct Hin as [<-|[<-|[<-|[<-|[<-|[<-|[<-|[]]]]]]]].
    + eexists. split; [reflexivity|]. right.
      exists [playback_play], playback_play. repeat split.
    + eexists. split; [reflexivity|]. right.
      exists [playback_stop], playback_stop. repeat split.
    + eexists. split; [reflexivity|]. right.
      exists [playback_pause], playback_pause. repeat split.
    + eexists. split; [reflexivity|]. right.
      exists [playback_resume], playback_resume. repeat split.
    + eexists. split; [apply toggle_run|]. right.
      eexists _, (toggle_call (playback_state (player w))).
      split; [reflexivity|].
      destruct (playback_state (player w)); split; reflexivity.
    + eexists. split; [reflexivity|]. right.
      exists [playback_previous], playback_previous. repeat split.
    + eexists. split; [reflexivity|]. right.
      exists [playback_next], playback_next. repeat split.
  - assert (Hout : ~ In value plb_values)
      by (apply not_listed; rewrite E; reflexivity).
    eexists. split; [apply (plb_unknown_run value w Hout)|].
    left. eexists (warning _ _). split; reflexivity.
Qed.

(** X11. Whatever the value, the playback handler returns normally, and
    what it leaves behind is one of two things: a single warning with
    nothing else touched, or calls on the core of which exactly one is a
    command, and that one a playback command; it never writes the volume
    and never touches the queue through a call of its own. *)
Theorem plb_warns_or_one_command (value : string) (w : World) :
  exists w', on_action_plb value w = (Returned tt, w') /\ plb_outcome w w'.
Proof.
  apply plb_run_outcome.
Qed.

(** X12. 'toggle' does to the player what the direct value for the current
    state does: 'pause' when PLAYING, 'resume' when PAUSED, 'play' when
    STOPPED. *)
Theorem toggle_as_direct (w : World) :
  player (snd (on_action_plb "toggle" w))
  = player (snd (on_action_plb (toggle_word (playback_state (player w))) w)).
Proof.
  pose proof (toggle_run w) as Hrun. cbv zeta in Hrun. rewrite Hrun.
  destruct w as [[v s q] cs ob lg]. destruct s; reflexivity.
Qed.

(** ** Inquiries, for every value *)

(** X13. The inquiry handler hands a message to the bus exactly when the
    value is 'state' or 'volume'; for every other value the outbox is as it
    was. *)
Theorem inf_publishes_iff (value : string) (w : World) :
  outbox (snd (on_action_inf value w)) <> outbox w
  <-> value = "state" \/ value = "volume".
Proof.
  destruct (String.eqb_spec value "state") as [->|Hs].
  { split; [auto|]. intros _. apply snoc_differs. }
  destruct (String.eqb_spec value "volume") as [->|Hv].
  { split; [auto|]. intros _. apply snoc_differs. }
  split; [|intros [E|E]; contradiction].
  intros H. exfalso. apply H.
  destruct (String.eqb_spec value "queue") as [->|Hq]; [reflexivity|].
  rewrite inf_unknown_run; [reflexivity|].
  simpl. intros [E|[E|[E|[]]]]; congruence.
Qed.

(** X14. The inquiry handler raises exactly when the value is 'queue', and
    then NotImplementedError with the world untouched: no call, no message,
    no log record. *)
Theorem inf_raises_iff (value : string) (w : World) :
  (fst (on_action_inf value w) <> Returned tt <-> value = "queue")
  /\ on_action_inf "queue" w = (Raised NotImplementedError, w).
Proof.
  split; [|reflexivity].
  destruct (String.eqb_spec value "queue") as [->|Hq].
  { split; [auto|]. intros _. discriminate. }
  split; [|contradiction]. intros H. exfalso. apply H.
  destruct (String.eqb_spec value "state") as [->|Hs]; [reflexivity|].
  destruct (String.eqb_spec value "volume") as [->|Hv]; [reflexivity|].
  rewrite inf_unknown_run; [reflexivity|].
  simpl. intros [E|[E|[E|[]]]]; congruence.
Qed.

(** X15. A reply to an inquiry is the message of the corresponding event:
    'inf volume' hands the bus what [volume_changed] hands it for the
    current volume, 'inf state' what [playback_state_changed] hands it for
    the current state. *)
Theorem inf_replies_as_events (old_state : PlaybackState) (w : World) :
  outbox (snd (on_action_inf "volume" w))
  = outbox (snd (volume_changed (mixer_volume (player w)) w))
  /\ outbox (snd (on_action_inf "state" w))
     = outbox (snd (playback_state_changed old_state
                      (playback_state (player w)) w)).
Proof.
  split; reflexivity.
Qed.

(** ** The queue *)

Lemma add_step_calls (u : string) (w : World) :
  calls (snd (on_action_add u w))
  = (calls w
     ++ if nonempty u then [tracklist_add None None (Some u) None] else [])%list.
Proof.
  unfold nonempty, on_action_add.
  destruct (String.eqb_spec u "") as [->|Hne]; simpl.
  - rewrite app_nil_r. reflexivity.
  - reflexivity.
Qed.

(** X16. One call per non-empty payload, in order of arrival: after any
    sequence of 'add' payloads the calls made on the core are the earlier
    ones followed by one [tracklist.add(tracks=None, at_position=None,
    uri=u, uris=None)] for each non-empty payload u, in order; an empty
    payload makes no call. *)
Theorem add_calls_in_order (uris : list string) (w : World) :
  calls (after_each on_action_add uris w)
  = (calls w
     ++ map (fun u => tracklist_add None None (Some u) None)
            (filter nonempty uris))%list.
Proof.
  revert w. induction uris as [|u us IH]; intros w.
  - simpl. rewrite app_nil_r. reflexivity.
  - unfold after_each in *. cbn [fold_left filter].
    rewrite IH, add_step_calls, <- app_assoc.
    destruct (nonempty u); reflexivity.
Qed.

(** X18. A failed 'loa' is a 'clr': with a non-empty payload the world
    the playlist handler leaves when it raises is exactly the world the
    clear handler leaves when it returns. *)
Theorem loa_leaves_what_clr_leaves (value value' : string) (w : World) :
  value <> "" ->
  snd (on_action_loa value w) = snd (on_action_clr value' w)
  /\ fst (on_action_loa value w) = Raised NotImplementedError
  /\ fst (on_action_clr value' w) = Returned tt.
Proof.
  intros Hne. rewrite (loa_nonempty_run value w Hne). repeat split.
Qed.

(** X19. Only inquiries publish: the playback, volume, add, load, clear
    and search handlers hand nothing to the bus, whatever the payload and
    whether they return or raise. *)
Theorem commands_publish_nothing (value : string) (w : World) :
  outbox (snd (on_action_plb value w)) = outbox w
  /\ outbox (snd (on_action_vol value w)) = outbox w
  /\ outbox (snd (on_action_add value w)) = outbox w
  /\ outbox (snd (on_action_loa value w)) = outbox w
  /\ outbox (snd (on_action_clr value w)) = outbox w
  /\ outbox (snd (on_action_src value w)) = outbox w.
Proof.
  split.
  { destruct (plb_run_outcome value w) as (w' & Hrun & Hout).
    rewrite Hrun.
    destruct Hout as [(r & _ & ->)|(cs & c & -> & _)]; reflexivity. }
  split.
  { destruct (vol_run_outcome value w) as (w' & Hrun & Hout).
    rewrite Hrun. apply (vol_outcome_player w w' Hout). }
  unfold on_action_add, on_action_loa, on_action_src.
  destruct (String.eqb_spec value ""); repeat split.
Qed.

End Further.

(** * The further statements at concrete inputs *)

Lemma in_range_sample : in_range 40 /\ in_range 95.
Proof.
  unfold in_range, VOLUME_MIN, VOLUME_MAX. lia.
Defined.

(** Assigning 40 and reading back gives 40. *)
Lemma volume_set_then_get_witness :
  in_range 40
  /\ fst ((set_volume (collab := sample_collaborators) 40 ;;
           volume (collab := sample_collaborators)) sample_world)
     = Returned 40.
Proof.
  split; [exact (proj1 in_range_sample)|].
  exact (proj2 (proj2 (volume_set_then_get (collab := sample_collaborators)
                         40 sample_world)) (proj1 in_range_sample)).
Defined.

(** '--7' at volume 95 raises the volume, to the bound. *)
Lemma vol_signed_amount_witness :
  is_volume_operator "-"%char = true
  /\ numeral "7"
  /\ mixer_volume
       (player (snd (on_action_vol (collab := sample_collaborators) "--7"
                       sample_world)))
     = 100.
Proof.
  assert (Hn : numeral "7") by (split; [discriminate|repeat constructor]).
  split; [reflexivity|]. split; [exact Hn|].
  exact (proj1 (vol_signed_amount (collab := sample_collaborators)
                  "-"%char "7" sample_world eq_refl Hn)).
Defined.

(** 'xy1' has neither an operator nor a number: the number is reported. *)
Lemma vol_complaints_witness :
  "y1" <> "" /\ py_int "y1" = None
  /\ on_action_vol (collab := sample_collaborators) "xy1" sample_world
     = (Returned tt,
        logged (warning "Invalid volume setting value: %s" [VStr "y1"])
               sample_world).
Proof.
  assert (Hne : "y1" <> "") by discriminate.
  split; [exact Hne|]. split; [reflexivity|].
  exact (proj1 (proj2 (proj2 (vol_complaints
                                (collab := sample_collaborators)
                                "x"%char "y1" sample_world)))
           Hne eq_refl).
Defined.

(** '+5' then '-5' from 95 is back at 95. *)
Lemma vol_up_then_down_witness :
  numeral "5"
  /\ mixer_volume
       (player (snd (on_action_vol (collab := sample_collaborators) "-5"
                       (snd (on_action_vol (collab := sample_collaborators)
                               "+5" sample_world)))))
     = 95.
Proof.
  assert (Hn : numeral "5") by (split; [discriminate|repeat constructor]).
  split; [exact Hn|].
  refine (vol_up_then_down (collab := sample_collaborators) "5" sample_world
            Hn _ _); vm_compute; discriminate.
Defined.

(** '+10' and '-10' from 95 end at 100 and 85. *)
Lemma vol_relative_monotone_witness :
  numeral "10"
  /\ in_range (mixer_volume (player sample_world))
  /\ 95 <= mixer_volume
             (player (snd (on_action_vol (collab := sample_collaborators)
                             "+10" sample_world))) <= 100.
Proof.
  assert (Hn : numeral "10") by (split; [discriminate|repeat constructor]).
  split; [exact Hn|]. split; [exact (proj2 in_range_sample)|].
  exact (proj1 (vol_relative_monotone (collab := sample_collaborators)
                  "10" sample_world Hn (proj2 in_range_sample))).
Defined.

(** A mixed run of volume payloads from 95 keeps the bounds. *)
Lemma vol_stays_in_range_witness :
  in_range (mixer_volume (player sample_world))
  /\ in_range
       (mixer_volume
          (player (after_each (on_action_vol (collab := sample_collaborators))
                              ["+10"; "=-3"; "x"; "-200"; "+ 7"]
                              sample_world))).
Proof.
  split; [exact (proj2 in_range_sample)|].
  exact (vol_stays_in_range (collab := sample_collaborators)
           ["+10"; "=-3"; "x"; "-200"; "+ 7"] sample_world
           (proj2 in_range_sample)).
Defined.

(** '=40', built from the published form of 40, sets the volume to 40. *)
Lemma vol_accepts_published_witness :
  in_range 40
  /\ mixer_volume
       (player (snd (on_action_vol (collab := sample_collaborators)
                       (String "=" (py_str 40)) sample_world)))
     = 40.
Proof.
  split; [exact (proj1 in_range_sample)|].
  exact (proj2 (vol_accepts_published (collab := sample_collaborators)
                  40 sample_world) (proj1 in_range_sample)).
Defined.

(** 'loa jazz' leaves the world that 'clr' leaves. *)
Lemma loa_leaves_what_clr_leaves_witness :
  "jazz" <> ""
  /\ snd (on_action_loa (collab := sample_collaborators) "jazz" sample_world)
     = snd (on_action_clr (collab := sample_collaborators) "" sample_world).
Proof.
  assert (Hne : "jazz" <> "") by discriminate.
  split; [exact Hne|].
  exact (proj1 (loa_leaves_what_clr_leaves (collab := sample_collaborators)
                  "jazz" "" sample_world Hne)).
Defined.
